(** * RAG_AI-Chat-PDF: the upload and chat handlers and the ingestion worker

    A shallow embedding of the Express handlers of [server/index.js]
    (Gemini), of its two sibling servers (Hugging Face and Ollama) and of
    the BullMQ worker, together with the properties of the written
    specification that concern them; then of the health check, of the
    naming of stored uploads and of the two components of the client, the
    chat and the upload list, with properties read off the code.

    Conventions.
    - JavaScript strings are Rocq strings. The methods of the engine that
      rest on Unicode tables, [toLowerCase] and [trim], are not written
      out: they are the engine's, an [Engine] record.
    - A thrown or rejected value is [null], [undefined] or a value seen
      through its [message] property.
    - Every awaited call to an external collaborator (queue, vector
      store, language model, PDF loader, text splitter) is an entry of a
      [World] record: the call is logged as an [Event] and its outcome is
      whatever the world answers, a resolved value or a rejection.
    - [process.env] is a finite map from names to values.
    - Console logging is not part of the model.
    - The queue hands the worker the object the server serialised, and the
      server receives the query the client encoded into the URL.
    - A React state is the value its updaters are applied to, one after
      the other. *)

From Stdlib Require Import String Ascii List ZArith Bool DecimalString Lia.
From Stdlib Require Import DecimalNat DecimalFacts.
From stdpp Require Import gmap strings.
Import ListNotations.

Set Warnings "-register-all".

(** ** JavaScript strings *)

Module Js.

Definition nl : string := String (ascii_of_nat 10) EmptyString.
Definition tab : string := String (ascii_of_nat 9) EmptyString.

(** A template literal whose text spans several source lines. *)
Definition lines (l : list string) : string := String.concat nl l.

(** [`${n}`] for a non-negative integer. *)
Definition of_nat (n : nat) : string := NilZero.string_of_uint (Nat.to_uint n).

(** [s.startsWith(sub)] *)
Fixpoint startsWith (s sub : string) {struct sub} : bool :=
  match sub, s with
  | EmptyString, _ => true
  | String a sub', String b s' => Ascii.eqb a b && startsWith s' sub'
  | String _ _, EmptyString => false
  end.

(** [s.includes(sub)] *)
Fixpoint includes (s sub : string) : bool :=
  startsWith s sub ||
  match s with
  | EmptyString => false
  | String _ s' => includes s' sub
  end.

(** [s.substring(n)] for [0 <= n] *)
Fixpoint substring (n : nat) (s : string) : string :=
  match n, s with
  | O, _ => s
  | S n', EmptyString => EmptyString
  | S n', String _ s' => substring n' s'
  end.

(** [s.lastIndexOf(sub)], with [None] for JavaScript's [-1];
    [i] is the index of the first character of [s]. *)
Fixpoint lastIndexOf_from (i : nat) (s sub : string) : option nat :=
  match s with
  | EmptyString => if startsWith EmptyString sub then Some i else None
  | String _ s' =>
      match lastIndexOf_from (S i) s' sub with
      | Some j => Some j
      | None => if startsWith s sub then Some i else None
      end
  end.

Definition lastIndexOf (s sub : string) : option nat := lastIndexOf_from 0 s sub.

(** The ASCII characters that are white space: tab, line feed, vertical
    tab, form feed, carriage return and space. *)
Definition is_space (c : ascii) : bool :=
  let n := nat_of_ascii c in
  ((9 <=? n)%nat && (n <=? 13)%nat) || (n =? 32)%nat.

(** The text is made of ASCII white space only. *)
Fixpoint all_space (s : string) : bool :=
  match s with
  | EmptyString => true
  | String c s' => is_space c && all_space s'
  end.

(** Truthiness of a value that is [undefined] or a string. *)
Definition truthy (v : option string) : bool :=
  match v with
  | None => false
  | Some EmptyString => false
  | Some (String _ _) => true
  end.

End Js.

(** The string methods of the JavaScript engine that depend on the
    Unicode tables, taken as the engine has them; [toLowerCase] may
    change the length of a text. The one fact used of them is that
    trimming the empty string gives the empty string. *)
Record Engine := {
  toLowerCase : string -> string;
  trim : string -> string;
  trim_empty : trim EmptyString = EmptyString
}.

(** ** JSON values, as passed to [res.json] and [queue.add] *)

Inductive json : Type :=
| JNull
| JBool (b : bool)
| JNum (n : Z)
| JStr (s : string)
| JArr (items : list json)
| JObj (fields : list (string * json)).

(** Property access on an object; [None] is [undefined]. *)
Fixpoint field (k : string) (fields : list (string * json)) : option json :=
  match fields with
  | [] => None
  | (k', v) :: rest => if String.eqb k k' then Some v else field k rest
  end.

Definition get (k : string) (j : json) : option json :=
  match j with
  | JObj fields => field k fields
  | _ => None
  end.

(** A property whose value may be [undefined]: [JSON.stringify] drops it. *)
Definition opt_field (k : string) (v : option string) : list (string * json) :=
  match v with
  | Some s => [(k, JStr s)]
  | None => []
  end.

(** ** Documents, errors and HTTP responses *)

(** A LangChain [Document]. *)
Record Document := { pageContent : string; metadata : json }.

(** A thrown or rejected value: [null], [undefined], or any other value,
    seen through its [message] property, a string when it has one. *)
Inductive JsError :=
| Null
| Undefined
| Thrown (m : option string).

(** [error.message] for a value whose properties can be read; [None] is
    [undefined]. *)
Definition message (error : JsError) : option string :=
  match error with
  | Thrown m => m
  | Null | Undefined => None
  end.

(** [new Error(msg)], and the other errors with a message. *)
Definition Error (msg : string) : JsError := Thrown (Some msg).

Record Response := { status : nat; body : json }.

(** [res.json(b)] answers with the default status 200. *)
Definition res_json (b : json) : Response := {| status := 200; body := b |}.
Definition res_status_json (code : nat) (b : json) : Response :=
  {| status := code; body := b |}.

(** ** Effects: awaited calls, their log and their failures *)

Inductive outcome (A : Type) : Type :=
| Resolved (a : A)
| Rejected (e : JsError).
Arguments Resolved {A} a.
Arguments Rejected {A} e.

Inductive Role := system | user.

(** What [llm.invoke] receives: a list of chat messages or a prompt. *)
Inductive LlmInput :=
| Messages (msgs : list (Role * string))
| Prompt (text : string).

Record EmbeddingsConfig := { apiKey : option string; model : string }.
Record CollectionConfig := { url : string; collectionName : string }.
Record SplitterConfig := { chunkSize : nat; chunkOverlap : nat }.

Inductive Event :=
| QueueAdd (name : string) (payload : json)
| FromExistingCollection (e : EmbeddingsConfig) (c : CollectionConfig)
| RetrieverInvoke (k : nat) (query : string)
| LlmInvoke (input : LlmInput)
| LoaderLoad (path : string)
| SplitDocuments (cfg : SplitterConfig) (docs : list Document)
| AddDocuments (docs : list Document).

(** A computation that logs the calls it awaits and may throw. *)
Definition Eff (A : Type) : Type := outcome A * list Event.

Definition ret {A} (a : A) : Eff A := (Resolved a, []).
Definition throw {A} (e : JsError) : Eff A := (Rejected e, []).

Definition bind {A B} (m : Eff A) (k : A -> Eff B) : Eff B :=
  match m with
  | (Resolved a, t) => let (r, t') := k a in (r, t ++ t')
  | (Rejected e, t) => (Rejected e, t)
  end.

(** [await call(...)]: the call is logged, the world decides its outcome. *)
Definition await {A} (ev : Event) (o : outcome A) : Eff A := (o, [ev]).

(** [try { m } catch (error) { h error }] *)
Definition try_catch {A} (m : Eff A) (h : JsError -> Eff A) : Eff A :=
  match m with
  | (Resolved a, t) => (Resolved a, t)
  | (Rejected e, t) => let (r, t') := h e in (r, t ++ t')
  end.

(** Reading [error.message] in a [catch] block: it throws a TypeError
    when what was caught is [null] or [undefined]. *)
Definition read_message (error : JsError) : Eff (option string) :=
  match error with
  | Null => throw (Error "Cannot read properties of null (reading 'message')")
  | Undefined => throw (Error "Cannot read properties of undefined (reading 'message')")
  | Thrown m => ret m
  end.

Notation "'do' x <- m ; k" := (bind m (fun x => k))
  (at level 10, x name, m at level 100, k at level 200).

(** ** The external collaborators *)

(** The answers of the services the handlers await, each field the
    outcome of one call as a function of the arguments of that call, and
    the engine the server runs on. *)
Record World := {
  engine : Engine;
  queue_add : string -> json -> outcome unit;
  fromExistingCollection : EmbeddingsConfig -> CollectionConfig -> outcome unit;
  retriever_invoke : nat -> string -> outcome (list Document);
  llm_invoke : LlmInput -> outcome string;
  loader_load : string -> outcome (list Document);
  splitDocuments : SplitterConfig -> list Document -> outcome (list Document);
  addDocuments : list Document -> outcome unit
}.

(** ** POST /upload/pdf *)

(** [req.file] as multer fills it in. *)
Record MulterFile := { originalname : string; destination : string; path : string }.

(** The object handed to [JSON.stringify] for the queue. *)
Definition job_payload (f : MulterFile) : json :=
  JObj [("filename", JStr (originalname f));
        ("destination", JStr (destination f));
        ("path", JStr (path f))].

(** Reading a property of [req.file] when no file came with the request. *)
Definition undefined_file : JsError :=
  Error "Cannot read properties of undefined (reading 'originalname')".

(** The handler is the same in the three servers. *)
Definition upload_pdf (w : World) (req_file : option MulterFile) : Eff Response :=
  try_catch
    (do payload <- match req_file with
                   | Some f => ret (job_payload f)
                   | None => throw undefined_file
                   end;
     do _ <- await (QueueAdd "file-ready" payload) (queue_add w "file-ready" payload);
     ret (res_json (JObj [("message", JStr "PDF uploaded successfully")])))
    (fun error =>
       ret (res_status_json 500 (JObj [("error", JStr "Failed to upload file")]))).

(** ** GET /chat *)

Inductive Variant := Gemini | HuggingFace | Ollama.

Definition embeddings (env : gmap string string) : EmbeddingsConfig :=
  {| apiKey := env !! "GOOGLE_API_KEY"; model := "text-embedding-004" |}.

Definition collection : CollectionConfig :=
  {| url := "http://localhost:6333"; collectionName := "langchainjs-testing" |}.

(** The [k] given to [vectorStore.asRetriever]. *)
Definition retriever_k (v : Variant) : nat :=
  match v with
  | Gemini => 3
  | HuggingFace => 3
  | Ollama => 3
  end.

Definition separator : string := Js.nl +:+ Js.nl +:+ "---" +:+ Js.nl +:+ Js.nl.

Definition label (index : nat) (doc : Document) : string :=
  "Document " +:+ Js.of_nat (index + 1) +:+ ":" +:+ Js.nl +:+ pageContent doc.

(** [relevantDocs.map((doc, index) => ...).join("\n\n---\n\n")] *)
Definition context (relevantDocs : list Document) : string :=
  String.concat separator (imap label relevantDocs).

Definition gemini_systemPrompt (context : string) : string :=
  Js.lines
    ["You are a helpful AI assistant that answers questions based on PDF document content.";
     "";
     "Instructions:";
     "- Answer the user's question using ONLY the provided context from the PDF documents";
     "- If the answer is not in the context, clearly state that the information is not available in the provided documents";
     "- Be concise but comprehensive in your responses";
     "- Maintain a professional and helpful tone";
     "";
     "Context from PDF documents:";
     context].

Definition hf_prompt (context userQuery : string) : string :=
  Js.lines
    ["You are a helpful AI assistant that answers questions based on PDF document content.";
     "";
     "Context from PDF documents:";
     context;
     "";
     "Question: " +:+ userQuery;
     "";
     "Instructions:";
     "- Answer the question using ONLY the provided context from the PDF documents";
     "- If the answer is not in the context, clearly state that the information is not available";
     "- Be concise but comprehensive in your response";
     "- Maintain a professional and helpful tone";
     "";
     "Answer:"].

Definition ollama_systemPrompt (context : string) : string :=
  Js.lines
    ["You are a helpful AI assistant that answers questions based on PDF document content.";
     "Instructions:";
     "- Answer the user's question using ONLY the provided context from the PDF documents";
     "- If the answer is not in the context, clearly state that the information is not available in the provided documents";
     "- Be concise but comprehensive in your responses";
     "- Maintain a professional and helpful tone";
     "";
     "Context from PDF documents:";
     context].

(** The argument of [llm.invoke]. *)
Definition llm_input (v : Variant) (userQuery : string) (relevantDocs : list Document)
  : LlmInput :=
  match v with
  | Gemini =>
      Messages [(system, gemini_systemPrompt (context relevantDocs)); (user, userQuery)]
  | HuggingFace => Prompt (hf_prompt (context relevantDocs) userQuery)
  | Ollama => Prompt (ollama_systemPrompt (context relevantDocs))
  end.

(** The Hugging Face server drops an echoed prompt from the answer. *)
Definition cleanedResponse (js : Engine) (response : string) : string :=
  match Js.lastIndexOf (toLowerCase js response) "answer:" with
  | Some answerIndex => trim js (Js.substring (answerIndex + 7) response)
  | None => response
  end.

(** The text each server puts under [message]: the model's answer, which
    the Hugging Face server cleans first. *)
Definition generated_message (js : Engine) (v : Variant) (response : string) : string :=
  match v with
  | Gemini => response
  | HuggingFace => cleanedResponse js response
  | Ollama => response
  end.

Definition doc_json (doc : Document) : json :=
  JObj [("pageContent", JStr (pageContent doc)); ("metadata", metadata doc)].

(** The object given to [res.json] once the model has answered;
    [response] is the text of [generated_message]. *)
Definition success_body (v : Variant) (response : string) (relevantDocs : list Document)
  : json :=
  match v with
  | Gemini =>
      JObj [("message", JStr response);
            ("sources", JNum (Z.of_nat (length relevantDocs)));
            ("model", JStr "gemini-1.5-flash")]
  | HuggingFace =>
      JObj [("message", JStr response);
            ("sources", JNum (Z.of_nat (length relevantDocs)));
            ("model", JStr "microsoft/DialoGPT-large");
            ("docs", JArr (map doc_json relevantDocs))]
  | Ollama =>
      JObj [("message", JStr response);
            ("sources", JNum (Z.of_nat (length relevantDocs)));
            ("model", JStr "llama3.1");
            ("docs", JArr (map doc_json relevantDocs))]
  end.

(** [error.message?.includes(sub)], falsy when there is no message. *)
Definition message_includes (error : JsError) (sub : string) : bool :=
  match message error with
  | Some m => Js.includes m sub
  | None => false
  end.

Definition failed_chat (error : JsError) : Response :=
  res_status_json 500
    (JObj (("error", JStr "Failed to process chat request")
           :: opt_field "details" (message error))).

(** The [catch] block of the handler, for an error whose [message] can
    be read. *)
Definition chat_catch (v : Variant) (error : JsError) : Response :=
  match v with
  | Gemini =>
      if message_includes error "quota" then
        res_status_json 429
          (JObj [("error", JStr "API quota exceeded. Please try again later.")])
      else if message_includes error "API key" then
        res_status_json 401
          (JObj [("error", JStr "Invalid API key. Please check your Google API key.")])
      else failed_chat error
  | HuggingFace =>
      if message_includes error "rate limit" || message_includes error "quota" then
        res_status_json 429
          (JObj [("error", JStr "Hugging Face API rate limit exceeded. Please try again later.");
                 ("details", JStr "Free tier has limited requests per hour")])
      else if message_includes error "API key" || message_includes error "authentication" then
        res_status_json 401
          (JObj [("error", JStr "Invalid Hugging Face API key. Please check your configuration.");
                 ("details", JStr "Get your API key from https://huggingface.co/settings/tokens")])
      else if message_includes error "model" && message_includes error "loading" then
        res_status_json 503
          (JObj [("error", JStr "Model is loading. Please try again in a few moments.");
                 ("details", JStr "Hugging Face models may take time to load on first request")])
      else failed_chat error
  | Ollama =>
      if message_includes error "connect ECONNREFUSED" then
        res_status_json 503
          (JObj [("error", JStr "Ollama service is not running. Please start Ollama first.");
                 ("details", JStr "Run 'ollama serve' in your terminal")])
      else if message_includes error "model" && message_includes error "not found" then
        res_status_json 404
          (JObj [("error", JStr "Model not found. Please pull the model first.");
                 ("details", JStr "Run 'ollama pull llama3.1' in your terminal")])
      else failed_chat error
  end.

Definition bad_request : Response :=
  res_status_json 400 (JObj [("error", JStr "Message query parameter is required")]).

(** The handler; [req_query_message] is [req.query.message]. *)
Definition chat (v : Variant) (env : gmap string string) (w : World)
    (req_query_message : option string) : Eff Response :=
  try_catch
    (match req_query_message with
     | Some userQuery =>
         if negb (Js.truthy (Some userQuery)) then ret bad_request
         else
           do _ <- await (FromExistingCollection (embeddings env) collection)
                      (fromExistingCollection w (embeddings env) collection);
           do relevantDocs <- await (RetrieverInvoke (retriever_k v) userQuery)
                                 (retriever_invoke w (retriever_k v) userQuery);
           do response <- await (LlmInvoke (llm_input v userQuery relevantDocs))
                             (llm_invoke w (llm_input v userQuery relevantDocs));
           ret (res_json
                  (success_body v (generated_message (engine w) v response) relevantDocs))
     | None => ret bad_request
     end)
    (fun error => do _ <- read_message error; ret (chat_catch v error)).

(** ** The worker of the "file-upload-queue" *)

(** [JSON.parse(job.data)] *)
Record JobData := { job_filename : string; job_destination : string; job_path : string }.

(** The [CharacterTextSplitter] the job handler builds for every job. *)
Definition textSplitter : SplitterConfig := {| chunkSize := 1000; chunkOverlap := 200 |}.

Definition template_string (v : option string) : string :=
  match v with
  | Some s => s
  | None => "undefined"
  end.

(** The [catch] block of the job handler: every branch throws, and so
    does reading the message of [null] or [undefined]. The third branch
    reads [data], a [const] of the [try] block that is not in scope
    in the [catch] block, so what it throws is a ReferenceError. *)
Definition worker_catch (error : JsError) : JsError :=
  match error with
  | Null => Error "Cannot read properties of null (reading 'message')"
  | Undefined => Error "Cannot read properties of undefined (reading 'message')"
  | Thrown _ =>
      if message_includes error "quota" then
        Error "Google API quota exceeded. Please try again later."
      else if message_includes error "API key" then
        Error "Invalid Google API key. Please check your configuration."
      else if message_includes error "ENOENT" then
        Error "data is not defined"
      else Error ("Failed to process PDF: " +:+ template_string (message error))
  end.

(** The job handler. *)
Definition process_job (env : gmap string string) (w : World) (data : JobData) : Eff json :=
  try_catch
    (do docs <- await (LoaderLoad (job_path data)) (loader_load w (job_path data));
     do splitDocs <- await (SplitDocuments textSplitter docs)
                        (splitDocuments w textSplitter docs);
     do _ <- await (FromExistingCollection (embeddings env) collection)
                (fromExistingCollection w (embeddings env) collection);
     do _ <- await (AddDocuments splitDocs) (addDocuments w splitDocs);
     ret (JObj [("success", JBool true);
                ("filename", JStr (job_filename data));
                ("chunks", JNum (Z.of_nat (length splitDocs)));
                ("message", JStr "PDF successfully processed and stored in vector database")]))
    (fun error => throw (worker_catch error)).

(** ** Reading a log of calls *)

(** The chunk lists the text splitter was asked to produce, by
    configuration and input. *)
Definition split_calls (t : list Event) : list (SplitterConfig * list Document) :=
  omap (fun ev => match ev with SplitDocuments cfg docs => Some (cfg, docs) | _ => None end) t.

(** The chunk lists written to the vector index. *)
Definition stored_chunks (t : list Event) : list (list Document) :=
  omap (fun ev => match ev with AddDocuments docs => Some docs | _ => None end) t.

(** The [k] of every retrieval. *)
Definition retrieval_ks (t : list Event) : list nat :=
  omap (fun ev => match ev with RetrieverInvoke k _ => Some k | _ => None end) t.

(** The inputs of every generation call. *)
Definition llm_inputs (t : list Event) : list LlmInput :=
  omap (fun ev => match ev with LlmInvoke i => Some i | _ => None end) t.

(** The texts a generation input carries. *)
Definition input_texts (i : LlmInput) : list string :=
  match i with
  | Messages msgs => map snd msgs
  | Prompt text => [text]
  end.

(** Some text of the input contains [sub]. *)
Definition input_includes (i : LlmInput) (sub : string) : bool :=
  existsb (fun text => Js.includes text sub) (input_texts i).

(** The connection to the vector store, then the three calls the
    handler awaits for a query, in order. *)
Definition connect (env : gmap string string) (w : World) : outcome unit :=
  fromExistingCollection w (embeddings env) collection.

Definition chat_log (v : Variant) (env : gmap string string) (userQuery : string)
    (relevantDocs : list Document) : list Event :=
  [FromExistingCollection (embeddings env) collection;
   RetrieverInvoke (retriever_k v) userQuery;
   LlmInvoke (llm_input v userQuery relevantDocs)].

(** The first call of a run to be rejected is rejected with [e]. *)
Definition chat_rejects (v : Variant) (env : gmap string string) (w : World)
    (userQuery : string) (e : JsError) : Prop :=
  connect env w = Rejected e \/
  (connect env w = Resolved tt /\
   retriever_invoke w (retriever_k v) userQuery = Rejected e) \/
  (exists relevantDocs,
     connect env w = Resolved tt /\
     retriever_invoke w (retriever_k v) userQuery = Resolved relevantDocs /\
     llm_invoke w (llm_input v userQuery relevantDocs) = Rejected e).

(** The number of chunks a finished job reports. *)
Definition reported_chunks (result : outcome json) : option json :=
  match result with
  | Resolved j => get "chunks" j
  | Rejected _ => None
  end.

(** ** Sample collaborators *)

Module Sample.

Definition chunk (text : string) (page : Z) : Document :=
  {| pageContent := text;
     metadata := JObj [("loc", JObj [("pageNumber", JNum page)])] |}.

Definition two_chunks : list Document :=
  [chunk "Refunds are issued within 30 days." 1; chunk "Shipping takes a week." 2].

(** An engine for the examples. Its methods do to a text what the
    engine's do to an ASCII text: the letters A to Z are lowered, and the
    ASCII white space at both ends is removed. *)
Definition lower (c : ascii) : ascii :=
  let n := nat_of_ascii c in
  if (65 <=? n)%nat && (n <=? 90)%nat then ascii_of_nat (n + 32) else c.

Fixpoint lower_all (s : string) : string :=
  match s with
  | EmptyString => EmptyString
  | String c s' => String (lower c) (lower_all s')
  end.

Fixpoint strip_start (s : string) : string :=
  match s with
  | EmptyString => EmptyString
  | String c s' => if Js.is_space c then strip_start s' else s
  end.

Fixpoint strip_end (s : string) : string :=
  match s with
  | EmptyString => EmptyString
  | String c s' =>
      match strip_end s' with
      | EmptyString => if Js.is_space c then EmptyString else String c EmptyString
      | t => String c t
      end
  end.

Definition ascii_engine : Engine :=
  {| toLowerCase := lower_all;
     trim := fun s => strip_end (strip_start s);
     trim_empty := eq_refl |}.

(** Every service answers: the index holds [docs], the model says
    [answer], a PDF loads as [docs] and its pages are short enough for the
    splitter to leave them whole. *)
Definition healthy (docs : list Document) (answer : string) : World :=
  {| engine := ascii_engine;
     queue_add := fun _ _ => Resolved tt;
     fromExistingCollection := fun _ _ => Resolved tt;
     retriever_invoke := fun k _ => Resolved (take k docs);
     llm_invoke := fun _ => Resolved answer;
     loader_load := fun _ => Resolved docs;
     splitDocuments := fun _ pages => Resolved pages;
     addDocuments := fun _ => Resolved tt |}.

(** As [healthy], but the model call is rejected with [msg]. *)
Definition llm_down (docs : list Document) (msg : string) : World :=
  {| engine := ascii_engine;
     queue_add := fun _ _ => Resolved tt;
     fromExistingCollection := fun _ _ => Resolved tt;
     retriever_invoke := fun k _ => Resolved (take k docs);
     llm_invoke := fun _ => Rejected (Error msg);
     loader_load := fun _ => Resolved docs;
     splitDocuments := fun _ pages => Resolved pages;
     addDocuments := fun _ => Resolved tt |}.

(** As [healthy], but the queue broker is unreachable. *)
Definition broker_down : World :=
  {| engine := ascii_engine;
     queue_add := fun _ _ => Rejected (Error "connect ECONNREFUSED 127.0.0.1:6379");
     fromExistingCollection := fun _ _ => Resolved tt;
     retriever_invoke := fun _ _ => Resolved [];
     llm_invoke := fun _ => Resolved "";
     loader_load := fun _ => Resolved [];
     splitDocuments := fun _ pages => Resolved pages;
     addDocuments := fun _ => Resolved tt |}.

(** As [healthy], but no PDF is found on disk. *)
Definition no_file : World :=
  {| engine := ascii_engine;
     queue_add := fun _ _ => Resolved tt;
     fromExistingCollection := fun _ _ => Resolved tt;
     retriever_invoke := fun _ _ => Resolved [];
     llm_invoke := fun _ => Resolved EmptyString;
     loader_load := fun p =>
       Rejected (Error ("ENOENT: no such file or directory, open '" +:+ p +:+ "'"));
     splitDocuments := fun _ pages => Resolved pages;
     addDocuments := fun _ => Resolved tt |}.

Definition report : MulterFile :=
  {| originalname := "report.pdf";
     destination := "uploads/";
     path := "uploads/1700000000000-123456789-report.pdf" |}.

Definition env : gmap string string := {[ "GOOGLE_API_KEY" := "key" ]}.

End Sample.

(** ** GET /health *)

Definition health_prompt : LlmInput := Prompt "Say 'Hello' if you're working".

(** The object given to [res.json] when the model answers the probe. *)
Definition health_ok (v : Variant) (testResponse : string) : json :=
  match v with
  | Gemini =>
      JObj [("status", JStr "healthy");
            ("gemini", JStr "connected");
            ("response", JStr testResponse)]
  | HuggingFace =>
      JObj [("status", JStr "healthy");
            ("huggingface", JStr "connected");
            ("model", JStr "microsoft/DialoGPT-large");
            ("response", JStr testResponse)]
  | Ollama =>
      JObj [("status", JStr "healthy");
            ("ollama", JStr "connected");
            ("model", JStr "llama3.1");
            ("response", JStr testResponse)]
  end.

(** The object given to [res.status(500).json] when the probe fails with
    an error whose [message] can be read. *)
Definition health_failed (v : Variant) (error : JsError) : json :=
  match v with
  | Gemini =>
      JObj ([("status", JStr "unhealthy"); ("gemini", JStr "disconnected")]
            ++ opt_field "error" (message error))
  | HuggingFace =>
      JObj ([("status", JStr "unhealthy"); ("huggingface", JStr "disconnected")]
            ++ opt_field "error" (message error)
            ++ [("troubleshooting",
                 JObj [("checkApiKey", JStr "Verify HUGGINGFACE_API_KEY in .env file");
                       ("getApiKey", JStr "Get API key from: https://huggingface.co/settings/tokens");
                       ("modelLoading", JStr "Some models may take time to load on first request")])])
  | Ollama =>
      JObj ([("status", JStr "unhealthy"); ("ollama", JStr "disconnected")]
            ++ opt_field "error" (message error)
            ++ [("troubleshooting",
                 JObj [("checkOllamaRunning", JStr "Run 'ollama serve' to start Ollama");
                       ("checkModelInstalled", JStr "Run 'ollama pull llama3.1' to install model");
                       ("checkPort", JStr "Ensure Ollama is running on port 11434")])])
  end.

(** The handler. *)
Definition health (v : Variant) (w : World) : Eff Response :=
  try_catch
    (do testResponse <- await (LlmInvoke health_prompt) (llm_invoke w health_prompt);
     ret (res_json (health_ok v testResponse)))
    (fun error =>
       do _ <- read_message error;
       ret (res_status_json 500 (health_failed v error))).

(** ** Where multer stores an upload *)

(** [destination]: every upload goes to the same directory. *)
Definition storage_destination : string := "uploads/".

(** [filename]: [now] is [Date.now()], [rnd] is
    [Math.round(Math.random() * 1e9)]. *)
Definition storage_filename (now rnd : nat) (originalname : string) : string :=
  let uniqueSuffix := Js.of_nat now +:+ "-" +:+ Js.of_nat rnd in
  uniqueSuffix +:+ "-" +:+ originalname.

(** The characters of [s] are decimal digits. *)
Fixpoint all_digits (s : string) : bool :=
  match s with
  | EmptyString => true
  | String c s' =>
      ((48 <=? nat_of_ascii c)%nat && (nat_of_ascii c <=? 57)%nat) && all_digits s'
  end.

(** ** From the queue to the worker *)

(** A property of a parsed object that holds a string. *)
Definition string_property (k : string) (j : json) : option string :=
  match get k j with
  | Some (JStr s) => Some s
  | _ => None
  end.

(** What the job handler reads of [JSON.parse(job.data)], for a payload
    whose three properties are strings, as the server writes them. The
    queue hands the worker the object the server gave it. *)
Definition job_data (payload : json) : option JobData :=
  match string_property "filename" payload,
        string_property "destination" payload,
        string_property "path" payload with
  | Some f, Some d, Some p =>
      Some {| job_filename := f; job_destination := d; job_path := p |}
  | _, _, _ => None
  end.

(** The payloads a run of the upload handler enqueued. *)
Definition enqueued (t : list Event) : list json :=
  omap (fun ev => match ev with QueueAdd _ payload => Some payload | _ => None end) t.

(** ** The chat component of the client *)

Module ChatClient.

(** [IMessage]; [content] and [documents] hold whatever the parsed answer
    has under [message] and [docs], [None] being [undefined]. *)
Inductive Role := assistant | user.

Record IMessage := {
  role : Role;
  content : option json;
  documents : option json;
  timestamp : option nat
}.

(** The component's state: the input field, the conversation, the
    spinner. *)
Record State := { message : string; messages : list IMessage; isLoading : bool }.

Definition apology : string := "Sorry, I encountered an error. Please try again.".

(** [handleSendChatMessage], from the click to the end of its [finally]
    block. [js] is the engine of the browser. [fetchChat q] is what [fetch] followed by [res.json()] yields
    for the query [q]: the parsed body, whatever the HTTP status, or a
    rejection when the request or the parsing fails. [now] and [later]
    are the two readings of the clock. The result is the new state and
    the queries sent. *)
Definition handleSendChatMessage (js : Engine) (fetchChat : string -> outcome json)
    (now later : nat) (st : State) : State * list string :=
  if negb (Js.truthy (Some (trim js (message st)))) then (st, [])
  else
    let userMessage :=
      {| role := user; content := Some (JStr (message st));
         documents := None; timestamp := Some now |} in
    let answer :=
      match fetchChat (message st) with
      | Resolved data =>
          {| role := assistant; content := get "message" data;
             documents := get "docs" data; timestamp := Some later |}
      | Rejected _ =>
          {| role := assistant; content := Some (JStr apology);
             documents := None; timestamp := Some later |}
      end in
    ({| message := EmptyString;
        messages := (messages st ++ [userMessage]) ++ [answer];
        isLoading := false |},
     [message st]).

(** A conversation: the inputs typed and sent one after the other, each
    with its two clock readings. *)
Fixpoint converse (js : Engine) (fetchChat : string -> outcome json)
    (inputs : list (string * nat * nat)) (st : State) : State * list string :=
  match inputs with
  | [] => (st, [])
  | (text, now, later) :: rest =>
      let typed := {| message := text; messages := messages st; isLoading := isLoading st |} in
      let (st1, sent1) := handleSendChatMessage js fetchChat now later typed in
      let (st2, sent2) := converse js fetchChat rest st1 in
      (st2, sent1 ++ sent2)
  end.

(** The sources shown under an answer: [msg.documents.slice(0, 3)]. *)
Definition shown_sources (docs : list json) : list json := take 3 docs.

End ChatClient.

(** The client talking to one of the servers: the body of the answer of
    GET /chat for the query. *)
Definition served_by (v : Variant) (env : gmap string string) (w : World)
    (userQuery : string) : outcome json :=
  match fst (chat v env w (Some userQuery)) with
  | Resolved r => Resolved (body r)
  | Rejected e => Rejected e
  end.

(** ** The upload component of the client *)

Module FileUpload.

Inductive Status := uploading | success | error.

(** [UploadedFile]; [error_text] is its optional [error] property. *)
Record UploadedFile := {
  name : string;
  size : nat;
  status : Status;
  progress : nat;
  error_text : option string
}.

(** A [File] of the browser. *)
Record BrowserFile := { file_name : string; file_size : nat; file_type : string }.

Definition is_uploading (s : Status) : bool :=
  match s with
  | uploading => true
  | _ => false
  end.

(** The updaters given to [setUploadedFiles]. *)

Definition newFile (file : BrowserFile) : UploadedFile :=
  {| name := file_name file; size := file_size file; status := uploading;
     progress := 0; error_text := None |}.

(** [prev => [...prev, newFile]] *)
Definition started (file : BrowserFile) (prev : list UploadedFile) : list UploadedFile :=
  prev ++ [newFile file].

(** The updater of the progress interval. *)
Definition tick (fileName : string) (prev : list UploadedFile) : list UploadedFile :=
  map (fun f =>
         if String.eqb (name f) fileName && is_uploading (status f)
         then {| name := name f; size := size f; status := status f;
                 progress := Nat.min (progress f + 10) 90; error_text := error_text f |}
         else f) prev.

(** The updater after [response.ok]. *)
Definition succeeded (fileName : string) (prev : list UploadedFile) : list UploadedFile :=
  map (fun f =>
         if String.eqb (name f) fileName
         then {| name := name f; size := size f; status := success;
                 progress := 100; error_text := error_text f |}
         else f) prev.

(** The updater of the [catch] block. *)
Definition failed (fileName : string) (prev : list UploadedFile) : list UploadedFile :=
  map (fun f =>
         if String.eqb (name f) fileName
         then {| name := name f; size := size f; status := error;
                 progress := 0; error_text := Some "Upload failed. Please try again." |}
         else f) prev.

(** The updater for a file that is not a PDF. *)
Definition refused (file : BrowserFile) (prev : list UploadedFile) : list UploadedFile :=
  prev ++ [{| name := file_name file; size := file_size file; status := error;
              progress := 0; error_text := Some "Only PDF files are allowed" |}].

(** [removeFile] *)
Definition removeFile (fileName : string) (prev : list UploadedFile) : list UploadedFile :=
  List.filter (fun f => negb (String.eqb (name f) fileName)) prev.

(** [retryUpload] *)
Definition retryUpload (fileName : string) (uploadedFiles : list UploadedFile)
  : list UploadedFile :=
  match List.find (fun f => String.eqb (name f) fileName) uploadedFiles with
  | Some _ => removeFile fileName uploadedFiles
  | None => uploadedFiles
  end.

(** One round of the [forEach] of [handleFileSelect]: the list shown and
    the files whose upload request has been started. *)
Definition select_one (acc : list UploadedFile * list BrowserFile) (file : BrowserFile)
  : list UploadedFile * list BrowserFile :=
  if String.eqb (file_type file) "application/pdf"
  then (started file (fst acc), snd acc ++ [file])
  else (refused file (fst acc), snd acc).

(** [handleFileSelect]; [None] is a [null] file list. *)
Definition handleFileSelect (files : option (list BrowserFile)) (prev : list UploadedFile)
  : list UploadedFile * list BrowserFile :=
  match files with
  | None => (prev, [])
  | Some fs => fold_left select_one fs (prev, [])
  end.

(** What can happen to the list: files are chosen, the interval of an
    upload fires, an upload is answered, the user removes or retries. *)
Inductive Action :=
| Select (files : option (list BrowserFile))
| Tick (fileName : string)
| Answered (fileName : string) (ok : bool)
| Remove (fileName : string)
| Retry (fileName : string).

Definition step (st : list UploadedFile) (a : Action) : list UploadedFile :=
  match a with
  | Select files => fst (handleFileSelect files st)
  | Tick fileName => tick fileName st
  | Answered fileName true => succeeded fileName st
  | Answered fileName false => failed fileName st
  | Remove fileName => removeFile fileName st
  | Retry fileName => retryUpload fileName st
  end.

(** The list after a history of actions, from the empty list. *)
Definition run (history : list Action) : list UploadedFile := fold_left step history [].

(** The progress an entry may show in its status. *)
Definition coherent (f : UploadedFile) : Prop :=
  match status f with
  | uploading => progress f <= 90
  | success => progress f = 100
  | error => progress f = 0
  end.

End FileUpload.

(** ** Substrings *)

Section Includes.

Local Open Scope string_scope.

Lemma startsWith_refl (s : string) : Js.startsWith s s = true.
Proof.
  induction s as [|c s IH]; simpl; [reflexivity|].
  rewrite Ascii.eqb_refl. exact IH.
Qed.

Lemma startsWith_app (sub s t : string) :
  Js.startsWith s sub = true -> Js.startsWith (s ++ t) sub = true.
Proof.
  revert s; induction sub as [|c sub IH]; intros s H; [destruct s; reflexivity|].
  destruct s as [|d s]; simpl in *; [discriminate|].
  apply andb_true_iff in H as [-> H]. simpl. apply IH, H.
Qed.

Lemma includes_refl (s : string) : Js.includes s s = true.
Proof.
  destruct s as [|c s]; [reflexivity|].
  cbn [Js.includes]. rewrite startsWith_refl. reflexivity.
Qed.

Lemma includes_cons (c : ascii) (s sub : string) :
  Js.includes s sub = true -> Js.includes (String c s) sub = true.
Proof. intros H. cbn [Js.includes]. rewrite H. apply orb_true_r. Qed.

Lemma includes_app_r (a s sub : string) :
  Js.includes s sub = true -> Js.includes (a ++ s) sub = true.
Proof.
  intros H. induction a as [|c a IH]; [exact H|].
  apply (includes_cons c (a ++ s)), IH.
Qed.

Lemma includes_app_l (s b sub : string) :
  Js.includes s sub = true -> Js.includes (s ++ b) sub = true.
Proof.
  induction s as [|c s IH]; intros H.
  - destruct sub; [destruct b; reflexivity | discriminate].
  - change (String c s ++ b) with (String c (s ++ b)).
    cbn [Js.includes] in H |- *. apply orb_true_iff in H as [H|H].
    + apply (startsWith_app sub (String c s) b) in H.
      change (String c s ++ b) with (String c (s ++ b)) in H.
      rewrite H. reflexivity.
    + rewrite (IH H). apply orb_true_r.
Qed.

Lemma includes_middle (a b c : string) : Js.includes (a ++ b ++ c) b = true.
Proof. apply includes_app_r, includes_app_l, includes_refl. Qed.

Lemma includes_concat (sep x : string) (l : list string) :
  In x l -> Js.includes (String.concat sep l) x = true.
Proof.
  induction l as [|y l IH]; intros H; [destruct H|].
  destruct H as [->|H].
  - destruct l; simpl; [apply includes_refl|].
    apply includes_app_l, includes_refl.
  - destruct l as [|z l]; [destruct H|].
    change (String.concat sep (y :: z :: l))
      with (y ++ sep ++ String.concat sep (z :: l)).
    apply includes_app_r, includes_app_r, IH, H.
Qed.

End Includes.

(** ** The model at work *)

Example context_two_chunks :
  context Sample.two_chunks =
  Js.lines ["Document 1:"; "Refunds are issued within 30 days."; ""; "---"; "";
            "Document 2:"; "Shipping takes a week."].
Proof. reflexivity. Qed.

Example cleanedResponse_echo :
  cleanedResponse Sample.ascii_engine "Question: what? ANSWER:  It is 30 days.  "
  = "It is 30 days.".
Proof. reflexivity. Qed.

Example cleanedResponse_plain :
  cleanedResponse Sample.ascii_engine "It is 30 days. " = "It is 30 days. ".
Proof. reflexivity. Qed.

Example upload_broker_down :
  upload_pdf Sample.broker_down (Some Sample.report) =
    (Resolved {| status := 500; body := JObj [("error", JStr "Failed to upload file")] |},
     [QueueAdd "file-ready" (job_payload Sample.report)]).
Proof. reflexivity. Qed.

Example chat_hf_capitalised_loading :
  fst (chat HuggingFace Sample.env
         (Sample.llm_down [] "Model microsoft/DialoGPT-large is currently loading")
         (Some "hello"))
  = Resolved (failed_chat (Error "Model microsoft/DialoGPT-large is currently loading")).
Proof. reflexivity. Qed.

Example worker_missing_file :
  worker_catch (Error "ENOENT: no such file or directory, open 'uploads/1-a.pdf'")
  = Error "data is not defined".
Proof. reflexivity. Qed.

(** ** Runs of the chat handler *)

Ltac nonblank q :=
  let c := fresh "c" in let s := fresh "s" in
  destruct q as [|c s]; [congruence|].

Ltac run_chat := unfold chat, connect in *; cbn [Js.truthy negb].

Ltac run_eff := unfold bind, await, try_catch, ret, throw, read_message.

Lemma chat_success v env w q docs answer :
  q <> EmptyString ->
  connect env w = Resolved tt ->
  retriever_invoke w (retriever_k v) q = Resolved docs ->
  llm_invoke w (llm_input v q docs) = Resolved answer ->
  chat v env w (Some q)
  = (Resolved (res_json (success_body v (generated_message (engine w) v answer) docs)),
     chat_log v env q docs).
Proof.
  intros Hq Hc Hr Hl. nonblank q. run_chat.
  run_eff. rewrite Hc, Hr, Hl. reflexivity.
Qed.

Lemma chat_llm_rejected v env w q docs m :
  q <> EmptyString ->
  connect env w = Resolved tt ->
  retriever_invoke w (retriever_k v) q = Resolved docs ->
  llm_invoke w (llm_input v q docs) = Rejected (Thrown m) ->
  chat v env w (Some q) = (Resolved (chat_catch v (Thrown m)), chat_log v env q docs).
Proof.
  intros Hq Hc Hr Hl. nonblank q. run_chat.
  run_eff. rewrite Hc, Hr, Hl. reflexivity.
Qed.

(** A rejection with an error value is answered by the [catch] block. *)
Lemma chat_rejected v env w q m :
  q <> EmptyString ->
  chat_rejects v env w q (Thrown m) ->
  fst (chat v env w (Some q)) = Resolved (chat_catch v (Thrown m)).
Proof.
  intros Hq [Hc | [[Hc Hr] | (docs & Hc & Hr & Hl)]].
  - nonblank q. run_chat. run_eff. rewrite Hc. reflexivity.
  - nonblank q. run_chat. run_eff. rewrite Hc, Hr. reflexivity.
  - rewrite (chat_llm_rejected v env w q docs m); auto.
Qed.

(** A rejection with [null] or [undefined] is not: reading its message
    in the [catch] block throws, and the handler rejects. *)
Lemma chat_nullish_escapes v env w q e :
  q <> EmptyString ->
  e = Null \/ e = Undefined ->
  chat_rejects v env w q e ->
  exists e', fst (chat v env w (Some q)) = Rejected e'.
Proof.
  intros Hq He [Hc | [[Hc Hr] | (docs & Hc & Hr & Hl)]];
    nonblank q; run_chat; run_eff; rewrite ?Hc, ?Hr, ?Hl;
    destruct He as [-> | ->]; simpl; eauto.
Qed.

(** Every call of a run that goes past the guard is in [chat_log]. *)
Lemma chat_log_prefix v env w q :
  q <> EmptyString ->
  exists docs, forall ev, In ev (snd (chat v env w (Some q))) -> In ev (chat_log v env q docs).
Proof.
  intros Hq. nonblank q. run_chat. run_eff.
  destruct (fromExistingCollection w _ _) as [[]|[| |m1]]; simpl.
  2-4: exists []; intros ev [<-|[]]; left; reflexivity.
  destruct (retriever_invoke w _ _) as [docs|[| |m2]]; simpl.
  2-4: exists []; intros ev [<-|[<-|[]]]; simpl; auto.
  exists docs.
  destruct (llm_invoke w _) as [answer|[| |m3]]; simpl; intros ev H; exact H.
Qed.

(** ** The blank-query guard *)

(** C4. When the [message] parameter of GET /chat is absent or the empty
    string, each of the three servers answers 400 with an [error] body
    and awaits nothing: the log of calls is empty, so no embedding is
    computed, the vector index is not queried and the model is not
    called. *)
Theorem chat_blank_query_rejected (v : Variant) (env : gmap string string) (w : World) :
  chat v env w None = (Resolved bad_request, []) /\
  chat v env w (Some EmptyString) = (Resolved bad_request, []) /\
  status bad_request = 400 /\
  get "error" (body bad_request) = Some (JStr "Message query parameter is required").
Proof. repeat split. Qed.

(** Conversely, a query that is not the empty string goes past the guard:
    the vector store is contacted first. *)
Lemma chat_nonblank_starts v env w q :
  q <> EmptyString ->
  exists rest,
    snd (chat v env w (Some q)) = FromExistingCollection (embeddings env) collection :: rest.
Proof.
  intros Hq. nonblank q. run_chat. run_eff.
  destruct (fromExistingCollection w _ _) as [[]|[| |m1]]; simpl; eauto.
  destruct (retriever_invoke w _ _) as [docs|[| |m2]]; simpl; eauto.
  destruct (llm_invoke w _) as [answer|[| |m3]]; simpl; eauto.
Qed.

(** ** No chunk retrieved *)

(** With no chunk retrieved the context block is empty and the prompt
    built around it is sent all the same, in each server and whatever the
    model then does. *)
Lemma chat_zero_chunks_sent v env w q :
  q <> EmptyString ->
  connect env w = Resolved tt ->
  retriever_invoke w (retriever_k v) q = Resolved [] ->
  context [] = EmptyString /\
  snd (chat v env w (Some q)) = chat_log v env q [].
Proof.
  intros Hq Hc Hr. split; [reflexivity|].
  nonblank q. run_chat. run_eff. rewrite Hc, Hr.
  destruct (llm_invoke w _) as [answer|[| |m]]; reflexivity.
Qed.

(** C5 on the Gemini server. For a query for which the vector index
    returns no chunk, the handler builds the system prompt around an
    empty context block, sends it to the model with the query and answers
    200 with the model's text under [message]; but the body has no [docs]
    array. The Hugging Face and Ollama servers answer with [docs: []]. *)
Theorem chat_zero_chunks_gemini_has_no_docs :
  let w := Sample.healthy [] "The documents do not say." in
  let q := "What is the refund policy?" in
  chat Gemini Sample.env w (Some q) =
    (Resolved
       {| status := 200;
          body := JObj [("message", JStr "The documents do not say.");
                        ("sources", JNum 0);
                        ("model", JStr "gemini-1.5-flash")] |},
     [FromExistingCollection (embeddings Sample.env) collection;
      RetrieverInvoke 3 q;
      LlmInvoke
        (Messages
           [(system,
             "You are a helpful AI assistant that answers questions based on PDF document content."
             +:+ Js.nl +:+ Js.nl +:+
             "Instructions:" +:+ Js.nl +:+
             "- Answer the user's question using ONLY the provided context from the PDF documents"
             +:+ Js.nl +:+
             "- If the answer is not in the context, clearly state that the information is not available in the provided documents"
             +:+ Js.nl +:+
             "- Be concise but comprehensive in your responses" +:+ Js.nl +:+
             "- Maintain a professional and helpful tone" +:+ Js.nl +:+ Js.nl +:+
             "Context from PDF documents:" +:+ Js.nl);
            (user, q)])]) /\
  (exists r, fst (chat Gemini Sample.env w (Some q)) = Resolved r /\
             get "docs" (body r) = None) /\
  fst (chat HuggingFace Sample.env w (Some q)) =
    Resolved
      {| status := 200;
         body := JObj [("message", JStr "The documents do not say.");
                       ("sources", JNum 0);
                       ("model", JStr "microsoft/DialoGPT-large");
                       ("docs", JArr [])] |} /\
  fst (chat Ollama Sample.env w (Some q)) =
    Resolved
      {| status := 200;
         body := JObj [("message", JStr "The documents do not say.");
                       ("sources", JNum 0);
                       ("model", JStr "llama3.1");
                       ("docs", JArr [])] |}.
Proof.
  cbv zeta. split; [vm_compute; reflexivity|].
  split; [eexists; split; reflexivity|].
  split; vm_compute; reflexivity.
Qed.

(** ** The number of chunks retrieved *)

(** Whatever the environment, the world and the request, a retrieval
    asks for three chunks. *)
Lemma chat_retrieval_ks v env w q k :
  In k (retrieval_ks (snd (chat v env w q))) -> k = 3.
Proof.
  destruct q as [[|c s]|]; [intros [] | | intros []].
  run_chat. run_eff.
  destruct (fromExistingCollection w _ _) as [[]|[| |m1]]; simpl; try (intros []).
  destruct (retriever_invoke w _ _) as [docs|[| |m2]]; simpl;
    try (intros [<-|[]]; destruct v; reflexivity).
  destruct (llm_invoke w _) as [answer|[| |m3]]; simpl;
    intros [<-|[]]; destruct v; reflexivity.
Qed.

(** C8, as stated, fails: the retrieval [k] cannot be configured. An
    environment that sets RETRIEVAL_K to 2 still leads to a retrieval of
    three chunks, and no server, environment, world or request leads to
    a retrieval with another [k]. *)
Lemma retrieval_k_not_configurable :
  retrieval_ks
    (snd (chat Gemini (<["RETRIEVAL_K" := "2"]> Sample.env)
            (Sample.healthy Sample.two_chunks "It is 30 days.")
            (Some "What is the refund policy?"))) = [3] /\
  ~ (exists v env w q k, In k (retrieval_ks (snd (chat v env w q))) /\ k <> 3).
Proof.
  split; [reflexivity|].
  intros (v & env & w & q & k & Hin & Hk). apply Hk.
  exact (chat_retrieval_ks v env w q k Hin).
Qed.

(** C8, amended. In each of the three servers the Responder asks the
    vector index for the top 3 chunks; [k] is a literal of the handler
    and the environment has no part in it. *)
Theorem retrieval_k_is_three (v : Variant) (env : gmap string string) (w : World) (q : string) :
  q <> EmptyString ->
  connect env w = Resolved tt ->
  retriever_k v = 3 /\
  retrieval_ks (snd (chat v env w (Some q))) = [3].
Proof.
  intros Hq Hc. split; [destruct v; reflexivity|].
  nonblank q. run_chat. run_eff. rewrite Hc.
  destruct (retriever_invoke w _ _) as [docs|[| |m2]]; simpl;
    try (destruct v; reflexivity).
  destruct (llm_invoke w _) as [answer|[| |m3]]; destruct v; reflexivity.
Qed.

Lemma retrieval_k_is_three_witness :
  retriever_k Ollama = 3 /\
  retrieval_ks
    (snd (chat Ollama (<["RETRIEVAL_K" := "2"]> Sample.env)
            (Sample.healthy Sample.two_chunks "It is 30 days.")
            (Some "What is the refund policy?"))) = [3].
Proof.
  apply (retrieval_k_is_three Ollama (<["RETRIEVAL_K" := "2"]> Sample.env)
           (Sample.healthy Sample.two_chunks "It is 30 days.")
           "What is the refund policy?");
    [discriminate | reflexivity].
Defined.

(** ** Failures of the collaborators *)





(** ** POST /upload/pdf *)

(** C9, as stated, fails: after a successful enqueue the body is not
    [{message: "uploaded"}]. *)
Lemma upload_success_body_differs :
  queue_add (Sample.healthy [] EmptyString) "file-ready" (job_payload Sample.report)
  = Resolved tt /\
  exists r,
    fst (upload_pdf (Sample.healthy [] EmptyString) (Some Sample.report)) = Resolved r /\
    status r = 200 /\
    body r <> JObj [("message", JStr "uploaded")].
Proof.
  split; [reflexivity|]. eexists. split; [reflexivity|]. split; [reflexivity|].
  simpl. discriminate.
Qed.

(** C9, amended. For an upload that carries a file, the handler enqueues
    one "file-ready" job; when the enqueue succeeds it answers 200 with
    [{message: "PDF uploaded successfully"}], when the enqueue fails it
    answers 500 with [{error: "Failed to upload file"}]. A request without
    a file is answered 500 too, and nothing is enqueued. *)
Theorem upload_pdf_responses (w : World) (f : MulterFile) :
  upload_pdf w (Some f) =
    (Resolved
       match queue_add w "file-ready" (job_payload f) with
       | Resolved _ =>
           {| status := 200; body := JObj [("message", JStr "PDF uploaded successfully")] |}
       | Rejected _ =>
           {| status := 500; body := JObj [("error", JStr "Failed to upload file")] |}
       end,
     [QueueAdd "file-ready" (job_payload f)]) /\
  upload_pdf w None =
    (Resolved {| status := 500; body := JObj [("error", JStr "Failed to upload file")] |}, []).
Proof.
  split; [|reflexivity].
  unfold upload_pdf, bind, await, try_catch, ret.
  destruct (queue_add w "file-ready" (job_payload f)) as [[]|e]; reflexivity.
Qed.

(** ** What the model is given *)

Lemma gemini_systemPrompt_context ctx : Js.includes (gemini_systemPrompt ctx) ctx = true.
Proof.
  unfold gemini_systemPrompt, Js.lines. cbn [String.concat].
  do 18 apply includes_app_r. apply includes_refl.
Qed.

Lemma ollama_systemPrompt_context ctx : Js.includes (ollama_systemPrompt ctx) ctx = true.
Proof.
  unfold ollama_systemPrompt, Js.lines. cbn [String.concat].
  do 16 apply includes_app_r. apply includes_refl.
Qed.

Lemma hf_prompt_context ctx q : Js.includes (hf_prompt ctx q) ctx = true.
Proof.
  unfold hf_prompt, Js.lines. cbn [String.concat].
  do 6 apply includes_app_r. apply includes_app_l, includes_refl.
Qed.

Lemma hf_prompt_query ctx q : Js.includes (hf_prompt ctx q) q = true.
Proof.
  unfold hf_prompt, Js.lines. cbn [String.concat].
  do 10 apply includes_app_r. apply includes_app_l, includes_app_r, includes_refl.
Qed.

(** In each server the model is given the context block. *)
Lemma llm_input_includes_context v q docs :
  input_includes (llm_input v q docs) (context docs) = true.
Proof.
  destruct v; unfold input_includes; cbn [llm_input input_texts map snd existsb].
  - rewrite gemini_systemPrompt_context. reflexivity.
  - rewrite hf_prompt_context. reflexivity.
  - rewrite ollama_systemPrompt_context. reflexivity.
Qed.

(** The context block labels the text of each chunk with its ordinal,
    counted from 1. *)
Lemma context_labels (docs : list Document) (i : nat) (d : Document) :
  docs !! i = Some d ->
  Js.includes (context docs)
    ("Document " +:+ Js.of_nat (i + 1) +:+ ":" +:+ Js.nl +:+ pageContent d) = true.
Proof.
  intros H. unfold context. apply includes_concat.
  apply list_elem_of_In, list_elem_of_lookup. exists i.
  rewrite list_lookup_imap, H. reflexivity.
Qed.

(** The Gemini and Hugging Face servers give the model the query too. *)
Lemma llm_input_includes_query v q docs :
  v <> Ollama -> input_includes (llm_input v q docs) q = true.
Proof.
  intros Hv. destruct v; [| |congruence];
    unfold input_includes; cbn [llm_input input_texts map snd existsb].
  - rewrite includes_refl. rewrite orb_true_r. reflexivity.
  - rewrite hf_prompt_query. reflexivity.
Qed.

(** The Ollama server does not: what it gives the model is the same for
    every query. *)
Lemma ollama_llm_input_ignores_query q1 q2 docs :
  llm_input Ollama q1 docs = llm_input Ollama q2 docs.
Proof. reflexivity. Qed.

(** C2 on the Ollama server. The model is given the context block, with
    each chunk under its ordinal, but not the query: the prompt for the
    query "zebra" over two retrieved chunks does not contain "zebra", and
    it is the prompt of every other query over these chunks. *)
Theorem ollama_llm_input_omits_query :
  let w := Sample.healthy Sample.two_chunks "It is 30 days." in
  let prompt := Prompt (ollama_systemPrompt (context Sample.two_chunks)) in
  llm_inputs (snd (chat Ollama Sample.env w (Some "zebra"))) = [prompt] /\
  input_includes prompt (context Sample.two_chunks) = true /\
  input_includes prompt "zebra" = false /\
  (forall q, llm_input Ollama q Sample.two_chunks = prompt) /\
  input_includes (llm_input Gemini "zebra" Sample.two_chunks) "zebra" = true /\
  input_includes (llm_input HuggingFace "zebra" Sample.two_chunks) "zebra" = true.
Proof.
  cbv zeta. split; [reflexivity|]. split; [apply (llm_input_includes_context Ollama "zebra")|].
  split; [vm_compute; reflexivity|]. split; [reflexivity|].
  split; vm_compute; reflexivity.
Qed.

(** ** The body of a successful answer *)

(** The Hugging Face and Ollama servers answer with the generated
    message and the retrieved chunks, each with its text and metadata. *)
Lemma chat_success_docs v answer docs :
  v <> Gemini ->
  (exists m, get "message" (success_body v answer docs) = Some (JStr m)) /\
  get "docs" (success_body v answer docs) = Some (JArr (map doc_json docs)) /\
  forall d, In d docs ->
    get "pageContent" (doc_json d) = Some (JStr (pageContent d)) /\
    get "metadata" (doc_json d) = Some (metadata d).
Proof.
  intros Hv. destruct v; [congruence| |]; (split; [eexists; reflexivity|]);
    (split; [reflexivity|]); intros d _; split; reflexivity.
Qed.

(** C1 on the Gemini server. A successful request over two retrieved
    chunks is answered 200 with the generated [message], the number of
    chunks under [sources] and the model name; the body has no [docs]
    property, whatever the answer and the chunks. *)
Theorem gemini_chat_success_has_no_docs :
  let w := Sample.healthy Sample.two_chunks "It is 30 days." in
  chat Gemini Sample.env w (Some "What is the refund policy?") =
    (Resolved
       {| status := 200;
          body := JObj [("message", JStr "It is 30 days.");
                        ("sources", JNum 2);
                        ("model", JStr "gemini-1.5-flash")] |},
     chat_log Gemini Sample.env "What is the refund policy?" Sample.two_chunks) /\
  (forall answer docs, get "docs" (success_body Gemini answer docs) = None) /\
  (forall answer docs,
     get "docs" (success_body Ollama answer docs) = Some (JArr (map doc_json docs)) /\
     get "docs" (success_body HuggingFace answer docs) = Some (JArr (map doc_json docs))).
Proof. cbv zeta. repeat split. Qed.

(** ** Queries made of whitespace *)

(** A query made of whitespace only, not being the empty string, goes
    past the guard in each server: it is the query of the retrieval, and
    the model is called when the retrieval answers. *)
Lemma chat_whitespace_query_processed v env w q docs answer :
  q <> EmptyString ->
  Js.all_space q = true ->
  connect env w = Resolved tt ->
  retriever_invoke w (retriever_k v) q = Resolved docs ->
  llm_invoke w (llm_input v q docs) = Resolved answer ->
  chat v env w (Some q) =
    (Resolved (res_json (success_body v (generated_message (engine w) v answer) docs)),
     [FromExistingCollection (embeddings env) collection;
      RetrieverInvoke 3 q;
      LlmInvoke (llm_input v q docs)]).
Proof.
  intros Hq _ Hc Hr Hl. rewrite (chat_success v env w q docs answer); auto.
  unfold chat_log. destruct v; reflexivity.
Qed.

(** C10 on the Ollama server. A query that is a single tab goes past the
    guard and is the query of the retrieval, but the prompt given to the
    model does not contain it; the Gemini and Hugging Face servers give
    the model the tab. *)
Theorem ollama_whitespace_query_not_forwarded :
  let w := Sample.healthy Sample.two_chunks "It is 30 days." in
  let prompt := Prompt (ollama_systemPrompt (context Sample.two_chunks)) in
  Js.truthy (Some Js.tab) = true /\
  Js.all_space Js.tab = true /\
  (exists r, fst (chat Ollama Sample.env w (Some Js.tab)) = Resolved r /\ status r = 200) /\
  snd (chat Ollama Sample.env w (Some Js.tab)) =
    [FromExistingCollection (embeddings Sample.env) collection;
     RetrieverInvoke 3 Js.tab;
     LlmInvoke prompt] /\
  input_includes prompt Js.tab = false /\
  (forall q, llm_input Ollama q Sample.two_chunks = prompt) /\
  input_includes (llm_input Gemini Js.tab Sample.two_chunks) Js.tab = true /\
  input_includes (llm_input HuggingFace Js.tab Sample.two_chunks) Js.tab = true.
Proof.
  cbv zeta. split; [reflexivity|]. split; [reflexivity|].
  split; [eexists; split; reflexivity|]. split; [reflexivity|].
  split; [vm_compute; reflexivity|]. split; [reflexivity|].
  split; vm_compute; reflexivity.
Qed.

(** ** The worker: chunking *)

(** What a job does once its PDF is loaded is decided by the pages. *)
Lemma process_job_loaded env w data pages :
  loader_load w (job_path data) = Resolved pages ->
  split_calls (snd (process_job env w data)) = [(textSplitter, pages)] /\
  stored_chunks (snd (process_job env w data)) =
    match splitDocuments w textSplitter pages, connect env w with
    | Resolved splitDocs, Resolved _ => [splitDocs]
    | _, _ => []
    end /\
  reported_chunks (fst (process_job env w data)) =
    match splitDocuments w textSplitter pages with
    | Resolved splitDocs =>
        match connect env w, addDocuments w splitDocs with
        | Resolved _, Resolved _ => Some (JNum (Z.of_nat (length splitDocs)))
        | _, _ => None
        end
    | Rejected _ => None
    end.
Proof.
  intros Hl. unfold process_job, connect, bind, await, try_catch, ret, throw.
  rewrite Hl.
  destruct (splitDocuments w textSplitter pages) as [splitDocs|e1]; simpl;
    [|repeat split].
  destruct (fromExistingCollection w _ _) as [[]|e2]; simpl; [|repeat split].
  destruct (addDocuments w splitDocs) as [[]|e3]; simpl; repeat split.
Qed.

(** C6. For every job whose PDF loads, the worker splits the loaded
    pages once, with a splitter of chunk size 1000 and chunk overlap 200,
    and what it writes to the vector index is what that splitter made of
    them. *)
Theorem worker_splits_1000_200 (env : gmap string string) (w : World) (data : JobData)
    (pages : list Document) :
  loader_load w (job_path data) = Resolved pages ->
  split_calls (snd (process_job env w data))
  = [({| chunkSize := 1000; chunkOverlap := 200 |}, pages)] /\
  forall splitDocs,
    splitDocuments w {| chunkSize := 1000; chunkOverlap := 200 |} pages = Resolved splitDocs ->
    connect env w = Resolved tt ->
    stored_chunks (snd (process_job env w data)) = [splitDocs].
Proof.
  intros Hl. destruct (process_job_loaded env w data pages Hl) as (Hs & Hst & _).
  split; [exact Hs|]. intros splitDocs Hsp Hc. rewrite Hst.
  change {| chunkSize := 1000; chunkOverlap := 200 |} with textSplitter in Hsp.
  rewrite Hsp, Hc. reflexivity.
Qed.

Lemma worker_splits_1000_200_witness :
  split_calls
    (snd (process_job Sample.env (Sample.healthy Sample.two_chunks EmptyString)
            {| job_filename := "report.pdf";
               job_destination := "uploads/";
               job_path := "uploads/1700000000000-123456789-report.pdf" |}))
  = [({| chunkSize := 1000; chunkOverlap := 200 |}, Sample.two_chunks)].
Proof.
  apply (worker_splits_1000_200 Sample.env (Sample.healthy Sample.two_chunks EmptyString)
           {| job_filename := "report.pdf";
              job_destination := "uploads/";
              job_path := "uploads/1700000000000-123456789-report.pdf" |}
           Sample.two_chunks).
  reflexivity.
Defined.

(** ** More on JavaScript strings *)

Section Strings.

Local Open Scope string_scope.

Lemma startsWith_iff (s sub : string) :
  Js.startsWith s sub = true <-> exists b, s = sub ++ b.
Proof.
  split.
  - revert s. induction sub as [|c sub IH]; intros s H; [exists s; reflexivity|].
    destruct s as [|d s]; simpl in H; [discriminate|].
    apply andb_true_iff in H as [Hc H]. apply Ascii.eqb_eq in Hc. subst d.
    destruct (IH s H) as [b ->]. exists b. reflexivity.
  - intros [b ->]. apply startsWith_app, startsWith_refl.
Qed.

Lemma includes_iff (s sub : string) :
  Js.includes s sub = true <-> exists a b, s = a ++ sub ++ b.
Proof.
  split.
  - induction s as [|c s IH]; intros H.
    + destruct sub; [|discriminate]. exists "", "". reflexivity.
    + cbn [Js.includes] in H. apply orb_true_iff in H as [H|H].
      * apply startsWith_iff in H as [b Hb]. exists "", b. exact Hb.
      * destruct (IH H) as (a & b & ->). exists (String c a), b. reflexivity.
  - intros (a & b & ->). apply includes_middle.
Qed.

Lemma includes_trans (s t u : string) :
  Js.includes s t = true -> Js.includes t u = true -> Js.includes s u = true.
Proof.
  intros H1 H2. apply includes_iff in H1 as (a & b & ->).
  apply includes_app_r, includes_app_l, H2.
Qed.


Lemma substring_suffix n s : exists a, s = a ++ Js.substring n s.
Proof.
  revert s. induction n as [|n IH]; intros s; [exists ""; reflexivity|].
  destruct s as [|c s]; [exists ""; reflexivity|].
  destruct (IH s) as [a Ha]. exists (String c a).
  change (String c s = String c (a ++ Js.substring n s)). f_equal. exact Ha.
Qed.



Lemma includes_substring_false n s sub :
  Js.includes s sub = false -> Js.includes (Js.substring n s) sub = false.
Proof.
  intros H. destruct (Js.includes (Js.substring n s) sub) eqn:E; [|reflexivity].
  destruct (substring_suffix n s) as [a Ha].
  rewrite Ha, (includes_app_r a _ sub E) in H. discriminate.
Qed.

Lemma append_cons c a b : String c a ++ b = String c (a ++ b).
Proof. reflexivity. Qed.

Lemma lastIndexOf_from_None i s sub :
  Js.lastIndexOf_from i s sub = None <-> Js.includes s sub = false.
Proof.
  revert i. induction s as [|c s IH]; intros i.
  - cbn [Js.lastIndexOf_from Js.includes]. rewrite orb_false_r.
    destruct (Js.startsWith "" sub); split; congruence.
  - cbn [Js.lastIndexOf_from Js.includes]. specialize (IH (S i)).
    destruct (Js.lastIndexOf_from (S i) s sub) as [j|].
    + destruct (Js.includes s sub); [|destruct IH as [_ IH]; discriminate IH; reflexivity].
      rewrite orb_true_r. split; discriminate.
    + destruct IH as [IH _]. rewrite (IH eq_refl), orb_false_r.
      destruct (Js.startsWith (String c s) sub); split; congruence.
Qed.

Lemma lastIndexOf_from_Some i s c sub j :
  Js.lastIndexOf_from i s (String c sub) = Some j ->
  exists n, j = i + n /\
            Js.startsWith (Js.substring n s) (String c sub) = true /\
            Js.includes (Js.substring (S n) s) (String c sub) = false.
Proof.
  revert i. induction s as [|d s IH]; intros i H.
  - discriminate H.
  - cbn [Js.lastIndexOf_from] in H.
    destruct (Js.lastIndexOf_from (S i) s (String c sub)) as [j'|] eqn:E.
    + injection H as <-. destruct (IH (S i) E) as (n & -> & Hs & Hn).
      exists (S n). split; [lia|]. split; assumption.
    + destruct (Js.startsWith (String d s) (String c sub)) eqn:Hs; [|discriminate].
      injection H as <-. exists 0. split; [lia|]. split; [exact Hs|].
      apply lastIndexOf_from_None in E. exact E.
Qed.



End Strings.

(** ** The answer of the Hugging Face server, cleaned *)

Section Cleaning.

Local Open Scope string_scope.

Lemma append_assoc (a b c : string) : (a ++ b) ++ c = a ++ b ++ c.
Proof.
  induction a as [|x a IH]; [reflexivity|].
  rewrite !append_cons. f_equal. exact IH.
Qed.





End Cleaning.

(** ** The names of stored uploads *)

Section Storage.

Local Open Scope string_scope.

Lemma all_digits_string_of_uint d : all_digits (NilEmpty.string_of_uint d) = true.
Proof. induction d; simpl; auto. Qed.

Lemma all_digits_of_nat n : all_digits (Js.of_nat n) = true.
Proof.
  unfold Js.of_nat, NilZero.string_of_uint.
  destruct (Nat.to_uint n); try reflexivity; apply all_digits_string_of_uint.
Qed.

Lemma to_uint_nonnil n : Nat.to_uint n <> Decimal.Nil.
Proof.
  rewrite <- (DecimalNat.Unsigned.of_to n), DecimalNat.Unsigned.to_of.
  apply DecimalFacts.unorm_nonnil.
Qed.

Lemma of_nat_inj n m : Js.of_nat n = Js.of_nat m -> n = m.
Proof.
  unfold Js.of_nat. intros H. apply DecimalNat.Unsigned.to_uint_inj.
  apply (f_equal NilZero.uint_of_string) in H.
  rewrite !NilZero.usu in H by apply to_uint_nonnil. congruence.
Qed.

(** A text is cut in one way only at the first dash after digits. *)
Lemma digits_dash_inj a a' x x' :
  all_digits a = true -> all_digits a' = true ->
  a ++ "-" ++ x = a' ++ "-" ++ x' -> a = a' /\ x = x'.
Proof.
  assert (forall y, "" ++ "-" ++ y = String "-" y) as N by reflexivity.
  revert a'. induction a as [|c a IH]; intros [|c' a'] Ha Ha' H;
    rewrite ?N, ?append_cons in H.
  - injection H as ->. split; reflexivity.
  - injection H as <- _. discriminate Ha'.
  - injection H as -> _. discriminate Ha.
  - injection H as -> H.
    cbn [all_digits] in Ha, Ha'.
    apply andb_true_iff in Ha as [_ Ha]. apply andb_true_iff in Ha' as [_ Ha'].
    destruct (IH a' Ha Ha' H) as [-> ->]. split; reflexivity.
Qed.

(** X3. Two uploads are stored under the same file name only when they
    arrive in the same millisecond, draw the same random number and have
    the same original name: the stored name determines all three. *)
Theorem storage_filename_inj (now1 rnd1 now2 rnd2 : nat) (name1 name2 : string) :
  storage_filename now1 rnd1 name1 = storage_filename now2 rnd2 name2 ->
  now1 = now2 /\ rnd1 = rnd2 /\ name1 = name2.
Proof.
  unfold storage_filename. cbv zeta. rewrite !append_assoc. intros H.
  apply digits_dash_inj in H as [Hn H]; try apply all_digits_of_nat.
  apply digits_dash_inj in H as [Hr H]; try apply all_digits_of_nat.
  apply of_nat_inj in Hn, Hr. auto.
Qed.

Lemma storage_filename_inj_witness :
  17 = 17 /\ 5 = 5 /\ "report.pdf" = "report.pdf".
Proof.
  apply (storage_filename_inj 17 5 17 5 "report.pdf" "report.pdf"). reflexivity.
Defined.

Example storage_filename_sample :
  storage_filename 17 5 "report.pdf" = "17-5-report.pdf".
Proof. reflexivity. Qed.

End Storage.

(** ** The worker: outcomes of a job *)

(** X4. The job the upload handler enqueues is the one the worker needs:
    read back, its payload names the uploaded file and the path multer
    stored it under, the first thing the job handler does is to load the
    PDF at that path, and a job that resolves reports the original file
    name. *)
Theorem upload_then_process (env : gmap string string) (w : World) (f : MulterFile) :
  let data := {| job_filename := originalname f;
                 job_destination := destination f;
                 job_path := path f |} in
  enqueued (snd (upload_pdf w (Some f))) = [job_payload f] /\
  job_data (job_payload f) = Some data /\
  (exists rest, snd (process_job env w data) = LoaderLoad (path f) :: rest) /\
  match fst (process_job env w data) with
  | Resolved result => get "filename" result = Some (JStr (originalname f))
  | Rejected _ => True
  end.
Proof.
  cbv zeta. split; [|split; [reflexivity|split]].
  - unfold upload_pdf, bind, await, try_catch, ret.
    destruct (queue_add w "file-ready" (job_payload f)) as [[]|e]; reflexivity.
  - unfold process_job, bind, await, try_catch, ret, throw. cbn [job_path].
    destruct (loader_load w (path f)) as [pages|e1]; simpl; [|eauto].
    destruct (splitDocuments w textSplitter pages) as [splitDocs|e2]; simpl; [|eauto].
    destruct (fromExistingCollection w _ _) as [[]|e3]; simpl; [|eauto].
    destruct (addDocuments w splitDocs) as [[]|e4]; simpl; eauto.
  - unfold process_job, bind, await, try_catch, ret, throw. cbn [job_path job_filename].
    destruct (loader_load w (path f)) as [pages|e1]; simpl; [|exact I].
    destruct (splitDocuments w textSplitter pages) as [splitDocs|e2]; simpl; [|exact I].
    destruct (fromExistingCollection w _ _) as [[]|e3]; simpl; [|exact I].
    destruct (addDocuments w splitDocs) as [[]|e4]; simpl; [reflexivity|exact I].
Qed.


(** X6. When the PDF of a job is missing (the loader's error mentions
    ENOENT, and neither "quota" nor "API key"), the job fails with the
    message "data is not defined", which names neither the file nor its
    path, after the one call to the loader. *)
Theorem process_job_missing_file (env : gmap string string) (w : World) (data : JobData)
    (e : JsError) (m : string) :
  loader_load w (job_path data) = Rejected e ->
  message e = Some m ->
  Js.includes m "ENOENT" = true ->
  Js.includes m "quota" = false ->
  Js.includes m "API key" = false ->
  process_job env w data =
    (Rejected (Error "data is not defined"), [LoaderLoad (job_path data)]).
Proof.
  intros Hl Hm H1 H2 H3. destruct e as [| |m']; try discriminate Hm.
  unfold process_job, bind, await, try_catch, ret, throw. rewrite Hl.
  unfold worker_catch, message_includes. rewrite Hm, H1, H2, H3. reflexivity.
Qed.

Lemma process_job_missing_file_witness :
  process_job Sample.env Sample.no_file
    {| job_filename := "a.pdf"; job_destination := "uploads/"; job_path := "uploads/1-a.pdf" |}
  = (Rejected (Error "data is not defined"), [LoaderLoad "uploads/1-a.pdf"]).
Proof.
  apply (process_job_missing_file Sample.env Sample.no_file
           {| job_filename := "a.pdf"; job_destination := "uploads/";
              job_path := "uploads/1-a.pdf" |}
           (Error "ENOENT: no such file or directory, open 'uploads/1-a.pdf'")
           "ENOENT: no such file or directory, open 'uploads/1-a.pdf'");
    reflexivity.
Defined.

(** ** GET /health *)

(** X7. The health check of each server makes one call, the probe of
    the model, and none to the queue or the vector store. It answers 200
    and "healthy" with the model's reply when the probe is answered, and
    500 and "unhealthy" with the error message when it is rejected with
    an error value. A rejection with null or undefined escapes the
    handler: reading its message throws. *)
Theorem health_probes_model_only (v : Variant) (w : World) :
  snd (health v w) = [LlmInvoke health_prompt] /\
  match llm_invoke w health_prompt with
  | Resolved testResponse =>
      exists r,
        fst (health v w) = Resolved r /\
        status r = 200 /\
        get "status" (body r) = Some (JStr "healthy") /\
        get "response" (body r) = Some (JStr testResponse)
  | Rejected (Thrown m) =>
      exists r,
        fst (health v w) = Resolved r /\
        status r = 500 /\
        get "status" (body r) = Some (JStr "unhealthy") /\
        get "error" (body r) = option_map JStr m
  | Rejected _ => exists error, fst (health v w) = Rejected error
  end.
Proof.
  unfold health. run_eff.
  destruct (llm_invoke w health_prompt) as [testResponse|[| |m]]; simpl.
  - split; [reflexivity|]. eexists. split; [reflexivity|].
    destruct v; repeat split.
  - split; [reflexivity|]. eexists. reflexivity.
  - split; [reflexivity|]. eexists. reflexivity.
  - split; [reflexivity|]. eexists. split; [reflexivity|].
    destruct v, m; repeat split.
Qed.

(** ** What the chat handler calls *)

(** X8. The chat handler only reads: it enqueues nothing, splits nothing
    and writes nothing to the vector index. Its calls are a prefix of the
    connection, the retrieval for the query and one model call, and the
    model is called only when the retrieval has answered, with the input
    built from the chunks it returned. *)
Theorem chat_only_reads (v : Variant) (env : gmap string string) (w : World) (q : string) :
  enqueued (snd (chat v env w (Some q))) = [] /\
  split_calls (snd (chat v env w (Some q))) = [] /\
  stored_chunks (snd (chat v env w (Some q))) = [] /\
  exists docs,
    snd (chat v env w (Some q)) `prefix_of` chat_log v env q docs /\
    (llm_inputs (snd (chat v env w (Some q))) = [] \/
     (retriever_invoke w (retriever_k v) q = Resolved docs /\
      llm_inputs (snd (chat v env w (Some q))) = [llm_input v q docs])).
Proof.
  destruct q as [|c s].
  { do 3 (split; [reflexivity|]). exists [].
    split; [apply prefix_nil | left; reflexivity]. }
  run_chat. run_eff.
  destruct (fromExistingCollection w _ _) as [[]|[| |m1]]; simpl.
  2-4: do 3 (split; [reflexivity|]); exists [];
       (split; [eexists; reflexivity | left; reflexivity]).
  destruct (retriever_invoke w _ _) as [docs|[| |m2]] eqn:Hr; simpl.
  2-4: do 3 (split; [reflexivity|]); exists [];
       (split; [eexists; reflexivity | left; reflexivity]).
  destruct (llm_invoke w _) as [answer|[| |m3]]; simpl;
    (do 3 (split; [reflexivity|]); exists docs;
     split; [exists []; reflexivity | right; split; reflexivity]).
Qed.

(** X9. In each server the input of the model holds every retrieved
    chunk: its full text, under the line "Document n:" with [n] its rank
    in the retrieval counted from 1. *)
Theorem llm_input_has_every_chunk (v : Variant) (q : string) (docs : list Document)
    (i : nat) (d : Document) :
  docs !! i = Some d ->
  input_includes (llm_input v q docs)
    ("Document " +:+ Js.of_nat (i + 1) +:+ ":" +:+ Js.nl +:+ pageContent d) = true.
Proof.
  intros H. pose proof (context_labels docs i d H) as L.
  destruct v; unfold input_includes; cbn [llm_input input_texts map snd existsb].
  - rewrite (includes_trans _ _ _ (gemini_systemPrompt_context (context docs)) L).
    reflexivity.
  - rewrite (includes_trans _ _ _ (hf_prompt_context (context docs) q) L). reflexivity.
  - rewrite (includes_trans _ _ _ (ollama_systemPrompt_context (context docs)) L).
    reflexivity.
Qed.

Lemma llm_input_has_every_chunk_witness :
  input_includes
    (llm_input HuggingFace "What is the refund policy?" Sample.two_chunks)
    ("Document " +:+ Js.of_nat (1 + 1) +:+ ":" +:+ Js.nl +:+ "Shipping takes a week.") = true.
Proof.
  apply (llm_input_has_every_chunk HuggingFace "What is the refund policy?"
           Sample.two_chunks 1 (Sample.chunk "Shipping takes a week." 2)).
  reflexivity.
Defined.

(** ** The chat client and the servers *)

(** A query that is not empty is never answered 400. *)
Lemma chat_nonblank_status v env w q r :
  q <> EmptyString ->
  fst (chat v env w (Some q)) = Resolved r ->
  In (status r) [200; 429; 401; 503; 404; 500].
Proof.
  intros Hq. nonblank q. run_chat. run_eff.
  assert (forall e, In (status (chat_catch v e)) [200; 429; 401; 503; 404; 500]) as C.
  { intros e. unfold chat_catch, failed_chat.
    destruct v;
      repeat match goal with
             | |- context [if ?b then _ else _] => destruct b
             end; simpl; tauto. }
  destruct (fromExistingCollection w _ _) as [[]|[| |m1]]; simpl;
    try discriminate; try (intros [= <-]; apply C).
  destruct (retriever_invoke w _ _) as [docs|[| |m2]]; simpl;
    try discriminate; try (intros [= <-]; apply C).
  destruct (llm_invoke w _) as [answer|[| |m3]]; simpl;
    try discriminate; intros [= <-]; [|apply C].
  left; reflexivity.
Qed.

(** A text that the engine does not trim to nothing is not empty. *)
Lemma trim_nonblank js q : trim js q <> EmptyString -> q <> EmptyString.
Proof. intros H ->. apply H, trim_empty. Qed.

Lemma handleSend_sent js fetchChat now later st q :
  In q (snd (ChatClient.handleSendChatMessage js fetchChat now later st)) ->
  trim js q <> EmptyString.
Proof.
  unfold ChatClient.handleSendChatMessage.
  destruct (trim js (ChatClient.message st)) eqn:E; simpl; [intros []|].
  intros [<-|[]]. rewrite E. discriminate.
Qed.

(** X11. Whatever is typed, the chat client sends no query that the
    browser's [trim] reduces to the empty string: none that is empty or
    made of white space only. So none of the servers answers it 400: the
    guard of GET /chat is never the one to answer this client. *)
Theorem client_never_sends_blank (js : Engine) (fetchChat : string -> outcome json)
    (inputs : list (string * nat * nat)) (st : ChatClient.State) (q : string) :
  In q (snd (ChatClient.converse js fetchChat inputs st)) ->
  trim js q <> EmptyString /\
  forall v env w r, fst (chat v env w (Some q)) = Resolved r -> status r <> 400.
Proof.
  intros H.
  assert (trim js q <> EmptyString) as T.
  { revert st H. induction inputs as [|[[text now] later] rest IH]; intros st H; [destruct H|].
    cbn [ChatClient.converse] in H.
    destruct (ChatClient.handleSendChatMessage js fetchChat now later _) as [st1 sent1] eqn:E1.
    destruct (ChatClient.converse js fetchChat rest st1) as [st2 sent2] eqn:E2.
    cbn [snd] in H. apply in_app_or in H as [H|H].
    - apply (handleSend_sent js fetchChat now later
               {| ChatClient.message := text; ChatClient.messages := ChatClient.messages st;
                  ChatClient.isLoading := ChatClient.isLoading st |}).
      rewrite E1. exact H.
    - apply (IH st1). rewrite E2. exact H. }
  split; [exact T|]. intros v env w r Hr.
  pose proof (chat_nonblank_status v env w q r (trim_nonblank js q T) Hr) as S.
  simpl in S. intros E. rewrite E in S.
  destruct S as [S|[S|[S|[S|[S|[S|[]]]]]]]; discriminate S.
Qed.

Lemma client_never_sends_blank_witness :
  trim Sample.ascii_engine "What is the refund policy?" <> EmptyString.
Proof.
  apply (client_never_sends_blank Sample.ascii_engine (fun _ => Resolved JNull)
           [("   ", 1, 2); ("What is the refund policy?", 3, 4)]
           {| ChatClient.message := EmptyString; ChatClient.messages := [];
              ChatClient.isLoading := false |}
           "What is the refund policy?").
  left. reflexivity.
Defined.

(** X12. The conversation only grows: the messages shown before are the
    first of the messages shown after, and every query sent adds two of
    them, the user's and one for the assistant, whether the server
    answered or not. Inputs that are not sent add none. *)
Theorem conversation_grows (js : Engine) (fetchChat : string -> outcome json)
    (inputs : list (string * nat * nat)) (st : ChatClient.State) :
  let after := ChatClient.converse js fetchChat inputs st in
  ChatClient.messages st `prefix_of` ChatClient.messages (fst after) /\
  length (ChatClient.messages (fst after))
  = length (ChatClient.messages st) + 2 * length (snd after).
Proof.
  cbv zeta. revert st. induction inputs as [|[[text now] later] rest IH]; intros st.
  { split; [reflexivity | simpl; lia]. }
  cbn [ChatClient.converse].
  set (typed := {| ChatClient.message := text; ChatClient.messages := ChatClient.messages st;
                   ChatClient.isLoading := ChatClient.isLoading st |}).
  destruct (ChatClient.handleSendChatMessage js fetchChat now later typed)
    as [st1 sent1] eqn:E1.
  specialize (IH st1).
  destruct (ChatClient.converse js fetchChat rest st1) as [st2 sent2] eqn:E2.
  cbn [fst snd] in *. destruct IH as [P L].
  assert (ChatClient.messages st `prefix_of` ChatClient.messages st1 /\
          length (ChatClient.messages st1)
          = length (ChatClient.messages st) + 2 * length sent1) as [P1 L1].
  { unfold ChatClient.handleSendChatMessage in E1.
    destruct (negb (Js.truthy (Some (trim js (ChatClient.message typed))))).
    - injection E1 as <- <-. split; [reflexivity | simpl; lia].
    - injection E1 as <- <-. cbn [ChatClient.messages]. split.
      + rewrite <- app_assoc. apply prefix_app_r. reflexivity.
      + rewrite !length_app. simpl. lia. }
  split; [etransitivity; eassumption|].
  rewrite L, L1, length_app. lia.
Qed.

Lemma chat_catch_has_no_message v e :
  get "message" (body (chat_catch v e)) = None /\
  get "docs" (body (chat_catch v e)) = None.
Proof.
  unfold chat_catch, failed_chat.
  destruct v;
    repeat match goal with
           | |- context [if ?b then _ else _] => destruct b
           end;
    destruct (message e); split; reflexivity.
Qed.

(** X13. When a call of the chat handler is rejected with an error
    value, the client does not show the server's error text, nor its own
    apology: the request succeeds as far as [fetch] goes, the body has no
    [message], and the assistant's message is added with no content and
    no sources. *)
Theorem client_shows_empty_answer_on_server_error (js : Engine) (v : Variant)
    (env : gmap string string) (w : World) (now later : nat) (st : ChatClient.State)
    (m : option string) :
  trim js (ChatClient.message st) <> EmptyString ->
  chat_rejects v env w (ChatClient.message st) (Thrown m) ->
  ChatClient.messages
    (fst (ChatClient.handleSendChatMessage js (served_by v env w) now later st))
  = ChatClient.messages st
    ++ [{| ChatClient.role := ChatClient.user;
           ChatClient.content := Some (JStr (ChatClient.message st));
           ChatClient.documents := None;
           ChatClient.timestamp := Some now |};
        {| ChatClient.role := ChatClient.assistant;
           ChatClient.content := None;
           ChatClient.documents := None;
           ChatClient.timestamp := Some later |}].
Proof.
  intros T R. pose proof (trim_nonblank js _ T) as Hq.
  unfold ChatClient.handleSendChatMessage.
  destruct (trim js (ChatClient.message st)) eqn:E; [congruence|].
  cbn [Js.truthy negb fst ChatClient.messages]. unfold served_by.
  rewrite (chat_rejected v env w (ChatClient.message st) m Hq R).
  destruct (chat_catch_has_no_message v (Thrown m)) as [-> ->].
  rewrite <- app_assoc. reflexivity.
Qed.

Lemma client_shows_empty_answer_on_server_error_witness :
  ChatClient.messages
    (fst (ChatClient.handleSendChatMessage Sample.ascii_engine
            (served_by Gemini Sample.env (Sample.llm_down [] "quota exceeded")) 1 2
            {| ChatClient.message := "hello"; ChatClient.messages := [];
               ChatClient.isLoading := false |}))
  = [{| ChatClient.role := ChatClient.user;
        ChatClient.content := Some (JStr "hello");
        ChatClient.documents := None;
        ChatClient.timestamp := Some 1 |};
     {| ChatClient.role := ChatClient.assistant;
        ChatClient.content := None;
        ChatClient.documents := None;
        ChatClient.timestamp := Some 2 |}].
Proof.
  apply (client_shows_empty_answer_on_server_error Sample.ascii_engine Gemini Sample.env
           (Sample.llm_down [] "quota exceeded") 1 2
           {| ChatClient.message := "hello"; ChatClient.messages := [];
              ChatClient.isLoading := false |}
           (Some "quota exceeded")).
  - discriminate.
  - right; right. exists []. repeat split.
Defined.

(** X14. When the three calls of the chat handler are answered, the
    assistant's message shows the generated text (cleaned, on the Hugging
    Face server). Its sources are the retrieved chunks on the Hugging
    Face and Ollama servers; on the Gemini server it has none. *)
Theorem client_shows_answer_and_sources (js : Engine) (v : Variant)
    (env : gmap string string) (w : World) (now later : nat) (st : ChatClient.State)
    (docs : list Document) (answer : string) :
  trim js (ChatClient.message st) <> EmptyString ->
  connect env w = Resolved tt ->
  retriever_invoke w (retriever_k v) (ChatClient.message st) = Resolved docs ->
  llm_invoke w (llm_input v (ChatClient.message st) docs) = Resolved answer ->
  last (ChatClient.messages
          (fst (ChatClient.handleSendChatMessage js (served_by v env w) now later st)))
  = Some {| ChatClient.role := ChatClient.assistant;
            ChatClient.content :=
              Some (JStr match v with
                         | HuggingFace => cleanedResponse (engine w) answer
                         | _ => answer
                         end);
            ChatClient.documents :=
              match v with
              | Gemini => None
              | _ => Some (JArr (map doc_json docs))
              end;
            ChatClient.timestamp := Some later |}.
Proof.
  intros T Hc Hr Hl. pose proof (trim_nonblank js _ T) as Hq.
  unfold ChatClient.handleSendChatMessage.
  destruct (trim js (ChatClient.message st)) eqn:E; [congruence|].
  cbn [Js.truthy negb fst ChatClient.messages]. unfold served_by.
  rewrite (chat_success v env w (ChatClient.message st) docs answer Hq Hc Hr Hl).
  rewrite last_snoc. destruct v; reflexivity.
Qed.

Lemma client_shows_answer_and_sources_witness :
  last (ChatClient.messages
          (fst (ChatClient.handleSendChatMessage Sample.ascii_engine
                  (served_by Gemini Sample.env
                     (Sample.healthy Sample.two_chunks "It is 30 days.")) 1 2
                  {| ChatClient.message := "What is the refund policy?";
                     ChatClient.messages := []; ChatClient.isLoading := false |})))
  = Some {| ChatClient.role := ChatClient.assistant;
            ChatClient.content := Some (JStr "It is 30 days.");
            ChatClient.documents := None;
            ChatClient.timestamp := Some 2 |}.
Proof.
  apply (client_shows_answer_and_sources Sample.ascii_engine Gemini Sample.env
           (Sample.healthy Sample.two_chunks "It is 30 days.") 1 2
           {| ChatClient.message := "What is the refund policy?";
              ChatClient.messages := []; ChatClient.isLoading := false |}
           Sample.two_chunks "It is 30 days."); try reflexivity.
  discriminate.
Defined.

(** ** The upload list of the client *)

Section UploadList.

Import FileUpload.

Lemma coherent_map (g : UploadedFile -> UploadedFile) (l : list UploadedFile) :
  (forall f, coherent f -> coherent (g f)) ->
  Forall coherent l -> Forall coherent (map g l).
Proof.
  intros Hg H. induction H as [|f l Hf _ IH]; constructor; auto.
Qed.

Lemma coherent_tick n l : Forall coherent l -> Forall coherent (tick n l).
Proof.
  apply coherent_map. intros f Hf.
  destruct (String.eqb (name f) n && is_uploading (status f)) eqn:E; [|exact Hf].
  apply andb_true_iff in E as [_ E]. unfold coherent in *. cbn [status progress].
  destruct (status f); try discriminate. lia.
Qed.

Lemma coherent_succeeded n l : Forall coherent l -> Forall coherent (succeeded n l).
Proof.
  apply coherent_map. intros f Hf. destruct (String.eqb (name f) n); [reflexivity|exact Hf].
Qed.

Lemma coherent_failed n l : Forall coherent l -> Forall coherent (failed n l).
Proof.
  apply coherent_map. intros f Hf. destruct (String.eqb (name f) n); [reflexivity|exact Hf].
Qed.

Lemma coherent_removeFile n l : Forall coherent l -> Forall coherent (removeFile n l).
Proof.
  intros H. induction H as [|f l Hf _ IH]; [constructor|].
  unfold removeFile. cbn [List.filter].
  destruct (negb (String.eqb (name f) n)); [constructor|]; assumption.
Qed.

(** The [forEach] of [handleFileSelect] adds one entry per file, in
    order, and starts a request for the PDFs among them. *)
Lemma select_fold fs shown started_ :
  fold_left select_one fs (shown, started_)
  = (shown ++ map (fun file =>
                     if String.eqb (file_type file) "application/pdf"
                     then newFile file
                     else {| name := file_name file; size := file_size file;
                             status := error; progress := 0;
                             error_text := Some "Only PDF files are allowed" |}) fs,
     started_ ++ List.filter (fun file => String.eqb (file_type file) "application/pdf") fs).
Proof.
  revert shown started_. induction fs as [|file fs IH]; intros shown started_.
  { simpl. rewrite !app_nil_r. reflexivity. }
  cbn [fold_left map List.filter]. unfold select_one at 2. cbn [fst snd].
  destruct (String.eqb (file_type file) "application/pdf");
    rewrite IH; unfold started, refused; rewrite <- !app_assoc; reflexivity.
Qed.

Lemma coherent_select files l :
  Forall coherent l -> Forall coherent (fst (handleFileSelect files l)).
Proof.
  intros H. destruct files as [fs|]; [|exact H].
  unfold handleFileSelect. rewrite select_fold. cbn [fst].
  apply Forall_app. split; [exact H|].
  apply Forall_forall. intros f Hf. apply list_elem_of_In, in_map_iff in Hf as (file & <- & _).
  destruct (String.eqb (file_type file) "application/pdf"); unfold coherent; simpl; lia.
Qed.

Lemma coherent_step l a : Forall coherent l -> Forall coherent (step l a).
Proof.
  intros H. destruct a as [files|n|n [|]|n|n]; cbn [step].
  - apply coherent_select, H.
  - apply coherent_tick, H.
  - apply coherent_succeeded, H.
  - apply coherent_failed, H.
  - apply coherent_removeFile, H.
  - unfold retryUpload. destruct (List.find _ l); [apply coherent_removeFile|]; exact H.
Qed.

(** X15. Whatever the user and the uploads do, every entry of the upload
    list shows a progress that fits its status: at most 90 while it is
    uploading, 100 once it has succeeded, 0 when it has failed or was
    refused. The progress bar is never wider than 100%. *)
Theorem upload_list_coherent (history : list Action) :
  Forall coherent (run history) /\
  Forall (fun f => progress f <= 100) (run history).
Proof.
  assert (Forall coherent (run history)) as C.
  { unfold run.
    assert (forall l, Forall coherent l -> Forall coherent (fold_left step history l)) as G.
    { induction history as [|a history IH]; intros l H; [exact H|].
      cbn [fold_left]. apply IH, coherent_step, H. }
    apply G. constructor. }
  split; [exact C|].
  eapply Forall_impl; [exact C|]. intros f Hf. unfold coherent in Hf.
  destruct (status f); lia.
Qed.

(** X16. The interval of an upload never completes it: after [k + 1]
    ticks an entry that is uploading under the file's name shows
    [min (p + 10 (k + 1)) 90] for its earlier progress [p], and the other
    entries are as they were. From 0, nine ticks lead to 90, where the
    progress stays until the server answers. *)
Theorem ticks_saturate (n : string) (k : nat) (l : list UploadedFile) :
  Nat.iter (S k) (tick n) l =
  map (fun f =>
         if String.eqb (name f) n && is_uploading (status f)
         then {| name := name f; size := size f; status := status f;
                 progress := Nat.min (progress f + 10 * S k) 90;
                 error_text := error_text f |}
         else f) l.
Proof.
  induction k as [|k IH].
  - cbn [Nat.iter]. unfold tick. apply map_ext. intros f.
    destruct (String.eqb (name f) n && is_uploading (status f)); [|reflexivity].
    f_equal; lia.
  - change (Nat.iter (S (S k)) (tick n) l) with (tick n (Nat.iter (S k) (tick n) l)).
    rewrite IH. unfold tick at 1. rewrite map_map. apply map_ext. intros f.
    destruct (String.eqb (name f) n && is_uploading (status f)) eqn:E; cbn [name status];
      rewrite E; [|reflexivity].
    cbn [progress size error_text]. f_equal; lia.
Qed.

(** X17. Entries are told apart by file name only. When an upload is
    answered well, every entry of that name becomes a success at 100%,
    also one that had failed before; entries of other names are left as
    they are, and the list keeps its length. *)
Theorem answer_marks_every_namesake (n : string) (l : list UploadedFile) :
  length (step l (Answered n true)) = length l /\
  forall i f, l !! i = Some f ->
    step l (Answered n true) !! i =
      Some (if String.eqb (name f) n
            then {| name := name f; size := size f; status := success;
                    progress := 100; error_text := error_text f |}
            else f).
Proof.
  cbn [step]. unfold succeeded. split; [apply length_map|].
  intros i f H. rewrite list_lookup_fmap, H. reflexivity.
Qed.

Lemma answer_marks_every_namesake_witness :
  step [{| name := "a.pdf"; size := 10; status := error; progress := 0;
           error_text := Some "Upload failed. Please try again." |};
        {| name := "a.pdf"; size := 10; status := uploading; progress := 40;
           error_text := None |}]
       (Answered "a.pdf" true) !! 0
  = Some {| name := "a.pdf"; size := 10; status := success; progress := 100;
            error_text := Some "Upload failed. Please try again." |}.
Proof.
  destruct (answer_marks_every_namesake "a.pdf"
              [{| name := "a.pdf"; size := 10; status := error; progress := 0;
                  error_text := Some "Upload failed. Please try again." |};
               {| name := "a.pdf"; size := 10; status := uploading; progress := 40;
                  error_text := None |}]) as [_ H].
  exact (H 0 _ eq_refl).
Defined.

(** X18. Retry does not upload again: it removes from the list every
    entry of the file's name, as Remove does, and leaves the other
    entries in their order. *)
Theorem retry_only_removes (n : string) (l : list UploadedFile) :
  retryUpload n l = removeFile n l /\
  (forall f, In f (retryUpload n l) <-> In f l /\ name f <> n) /\
  retryUpload n (retryUpload n l) = retryUpload n l.
Proof.
  assert (retryUpload n l = removeFile n l) as R.
  { unfold retryUpload. destruct (List.find _ l) eqn:E; [reflexivity|].
    unfold removeFile. induction l as [|f l IH]; [reflexivity|].
    cbn [List.find List.filter] in *.
    destruct (String.eqb (name f) n); [discriminate|].
    cbn [negb]. f_equal. apply IH, E. }
  assert (forall l', removeFile n (removeFile n l') = removeFile n l') as I.
  { intros l'. unfold removeFile. induction l' as [|f l' IH]; [reflexivity|].
    cbn [List.filter]. destruct (negb (String.eqb (name f) n)) eqn:E; [|exact IH].
    cbn [List.filter]. rewrite E. f_equal. exact IH. }
  split; [exact R|split].
  - intros f. rewrite R. unfold removeFile. rewrite filter_In.
    rewrite negb_true_iff, String.eqb_neq. reflexivity.
  - assert (forall l', retryUpload n l' = removeFile n l') as R'.
    { intros l'. unfold retryUpload. destruct (List.find _ l') eqn:E; [reflexivity|].
      unfold removeFile. induction l' as [|f l' IH]; [reflexivity|].
      cbn [List.find List.filter] in *.
      destruct (String.eqb (name f) n); [discriminate|].
      cbn [negb]. f_equal. apply IH, E. }
    rewrite !R'. apply I.
Qed.

(** X19. Choosing files adds one entry per file, in the order chosen: an
    uploading entry at 0% for a PDF, an error entry "Only PDF files are
    allowed" for any other type. Upload requests are started for the PDFs
    only, in that order; a [null] selection changes nothing. *)
Theorem handleFileSelect_entries (fs : list BrowserFile) (prev : list UploadedFile) :
  handleFileSelect None prev = (prev, []) /\
  handleFileSelect (Some fs) prev
  = (prev ++ map (fun file =>
                    if String.eqb (file_type file) "application/pdf"
                    then newFile file
                    else {| name := file_name file; size := file_size file;
                            status := error; progress := 0;
                            error_text := Some "Only PDF files are allowed" |}) fs,
     List.filter (fun file => String.eqb (file_type file) "application/pdf") fs).
Proof.
  split; [reflexivity|]. unfold handleFileSelect. apply select_fold.
Qed.

End UploadList.

(** ** When the chat handler answers 200 *)



